(** * Query provider of KubeVela: service endpoints, pod dispatch and logs

    A shallow embedding of [pkg/workflow/providers/query] (the handlers
    [GeneratorServiceEndpoints], [CollectPods], [CollectLogsInPod], the pure
    generators [generatorFromService] and [generatorFromIngress], and
    [ServiceEndpoint.String]).  Go strings are Rocq strings, Go [int32] and
    [int64] values are [Z] with their wrap-around written out, and Go maps
    ([ObjectMeta.Annotations]) are stdpp [gmap]s. *)

From Stdlib Require Import ZArith Lia.
From Stdlib Require Strings.String.
From Stdlib Require Import Strings.Ascii.
From stdpp Require Import base gmap strings list.

Local Open Scope Z_scope.

(** ** Go integers *)

Definition two_pow (w : Z) : Z := 2 ^ w.

(** Conversion of a mathematical integer to a signed [w]-bit Go integer
    (two's complement wrap-around, as Go's [int32(x)] or an [int64]
    multiplication does). *)
Definition wrap_signed (w x : Z) : Z :=
  let m := x mod two_pow w in
  if m <? two_pow (w - 1) then m else m - two_pow w.

Definition int32_of (x : Z) : Z := wrap_signed 32 x.
Definition int64_of (x : Z) : Z := wrap_signed 64 x.

Definition MinInt64 : Z := - 2 ^ 63.
Definition MaxInt64 : Z := 2 ^ 63 - 1.

(** ** Strings *)

Definition str_eqb (a b : string) : bool := String.eqb a b.

Definition ascii_digit (c : Ascii.ascii) : option Z :=
  let n := Ascii.nat_of_ascii c in
  if (48 <=? n)%nat && (n <=? 57)%nat then Some (Z.of_nat n - 48) else None.

(** Decimal value of a non-empty string of digits. *)
Fixpoint digits_value (acc : Z) (s : string) : option Z :=
  match s with
  | EmptyString => Some acc
  | String c s' =>
      match ascii_digit c with
      | Some d => digits_value (acc * 10 + d) s'
      | None => None
      end
  end.

Definition parse_unsigned (s : string) : option Z :=
  match s with
  | EmptyString => None
  | _ => digits_value 0 s
  end.

(** [strconv.Atoi] on a 64-bit platform: an optional sign followed by at least
    one decimal digit (no underscores: base 10 is explicit), whose value lies
    in the [int] (= [int64]) range; every other input is an error.  The value
    returned alongside an error is never read by the callers modelled here,
    so an error is [None]. *)
Definition Atoi (s : string) : option Z :=
  let signed :=
    match s with
    | String c s' =>
        if Ascii.eqb c "-"%char then option_map Z.opp (parse_unsigned s')
        else if Ascii.eqb c "+"%char then parse_unsigned s'
        else parse_unsigned s
    | EmptyString => None
    end in
  match signed with
  | Some n => if (MinInt64 <=? n) && (n <=? MaxInt64) then Some n else None
  | None => None
  end.

(** Go's [strings.ToLower] on the ASCII letters (protocol names such as
    "TCP", "UDP", "SCTP" are ASCII). *)
Definition ascii_lower (c : Ascii.ascii) : Ascii.ascii :=
  let n := Ascii.nat_of_ascii c in
  if (65 <=? n)%nat && (n <=? 90)%nat then Ascii.ascii_of_nat (n + 32) else c.

Fixpoint ToLower (s : string) : string :=
  match s with
  | EmptyString => EmptyString
  | String c s' => String (ascii_lower c) (ToLower s')
  end.

(** [fmt]'s [%d] of an integer. *)
Definition digit_char (d : Z) : Ascii.ascii := Ascii.ascii_of_nat (Z.to_nat (48 + d)).

Fixpoint nat_digits (fuel : nat) (n : Z) (acc : string) : string :=
  match fuel with
  | O => acc
  | S fuel' =>
      let acc' := String (digit_char (n mod 10)) acc in
      if n <? 10 then acc' else nat_digits fuel' (n / 10) acc'
  end.

Definition fmt_d (n : Z) : string :=
  if n <? 0 then String "-"%char (nat_digits 64 (- n) EmptyString)
  else nat_digits 64 n EmptyString.

(** ** Kubernetes objects (the fields the query provider reads) *)

Record ObjectMeta := mkObjectMeta {
  Name : string;
  Namespace : string;
  UID : string;
  ResourceVersion : string;
  Annotations : gmap string string
}.

Record ObjectReference := mkObjectReference {
  ref_Kind : string;
  ref_Namespace : string;
  ref_Name : string;
  ref_UID : string;
  ref_APIVersion : string;
  ref_ResourceVersion : string
}.

(** [Endpoint]; [Port] is a Go [int32]. *)
Record Endpoint := mkEndpoint {
  Protocol : string;
  AppProtocol : option string;
  Host : string;
  Port : Z;
  Path : string
}.

Record ServiceEndpoint := mkServiceEndpoint {
  se_Endpoint : Endpoint;
  se_Ref : ObjectReference
}.

(** [corev1.Protocol] and [corev1.ServiceType] values. *)
Definition ProtocolTCP : string := "TCP".
Definition ServiceTypeClusterIP : string := "ClusterIP".
Definition ServiceTypeNodePort : string := "NodePort".
Definition ServiceTypeLoadBalancer : string := "LoadBalancer".
Definition ServiceTypeExternalName : string := "ExternalName".

Record ServicePort := mkServicePort {
  sp_Protocol : string;
  sp_Port : Z;
  sp_NodePort : Z
}.

Record LoadBalancerIngress := mkLoadBalancerIngress {
  IP : string;
  Hostname : string
}.

Record Service := mkService {
  svc_Kind : string;
  svc_APIVersion : string;
  svc_Meta : ObjectMeta;
  svc_Type : string;                          (* Spec.Type *)
  svc_Ports : list ServicePort;               (* Spec.Ports *)
  svc_LBIngress : list LoadBalancerIngress    (* Status.LoadBalancer.Ingress *)
}.

Record IngressTLS := mkIngressTLS { tls_Hosts : list string }.

Record HTTPIngressPath := mkHTTPIngressPath { hp_Path : string }.

(** [IngressRule]: [HTTP] is a pointer, [None] for nil. *)
Record IngressRule := mkIngressRule {
  rule_Host : string;
  rule_HTTP : option (list HTTPIngressPath)
}.

Record Ingress := mkIngress {
  ing_Kind : string;
  ing_APIVersion : string;
  ing_Meta : ObjectMeta;
  ing_TLS : list IngressTLS;      (* Spec.TLS *)
  ing_Rules : list IngressRule    (* Spec.Rules *)
}.

(** Annotation keys of [apis/types]. *)
Definition AnnoIngressControllerHTTPSPort : string := "ingress.controller/https-port".
Definition AnnoIngressControllerHTTPPort : string := "ingress.controller/http-port".

(** Indexing a Go [map[string]string] yields "" for a missing key. *)
Definition map_index (m : gmap string string) (k : string) : string :=
  default "" (m !! k).

(** ** [generatorFromService] *)

Definition service_ref (service : Service) : ObjectReference :=
  {| ref_Kind := svc_Kind service;
     ref_Namespace := Namespace (svc_Meta service);
     ref_Name := Name (svc_Meta service);
     ref_UID := UID (svc_Meta service);
     ref_APIVersion := svc_APIVersion service;
     ref_ResourceVersion := ResourceVersion (svc_Meta service) |}.

(** The body of the inner loop over [Status.LoadBalancer.Ingress]: one
    endpoint for a non-empty [Hostname], then one for a non-empty [IP]. *)
Definition lb_endpoints (service : Service) (port : ServicePort)
    (ingress : LoadBalancerIngress) : list ServiceEndpoint :=
  (if negb (str_eqb (Hostname ingress) "") then
     [ {| se_Endpoint := {| Protocol := sp_Protocol port; AppProtocol := None;
                            Host := Hostname ingress; Port := sp_Port port;
                            Path := "" |};
          se_Ref := service_ref service |} ]
   else [])
  ++
  (if negb (str_eqb (IP ingress) "") then
     [ {| se_Endpoint := {| Protocol := sp_Protocol port; AppProtocol := None;
                            Host := IP ingress; Port := sp_Port port;
                            Path := "" |};
          se_Ref := service_ref service |} ]
   else []).

Definition nodeport_endpoint (service : Service) (port : ServicePort) : ServiceEndpoint :=
  {| se_Endpoint := {| Protocol := sp_Protocol port; AppProtocol := None;
                       Host := ""; Port := sp_NodePort port; Path := "" |};
     se_Ref := service_ref service |}.

(** The [switch service.Spec.Type]: types other than LoadBalancer and NodePort
    (ClusterIP, ExternalName, or any other value) fall through with no
    endpoint. *)
Definition generatorFromService (service : Service) : list ServiceEndpoint :=
  if str_eqb (svc_Type service) ServiceTypeLoadBalancer then
    flat_map (fun port => flat_map (lb_endpoints service port) (svc_LBIngress service))
             (svc_Ports service)
  else if str_eqb (svc_Type service) ServiceTypeNodePort then
    map (nodeport_endpoint service) (svc_Ports service)
  else [].

(** ** [generatorFromIngress] *)

(** Modelled from the spec: [utils.StringsContain] (pkg/utils, not among the
    sources) is membership of the rule's host in the TLS entry's host list,
    by exact string equality. *)
Definition StringsContain (items : list string) (s : string) : bool :=
  existsb (fun x => str_eqb x s) items.

(** [getAppProtocol]: the TLS entries are scanned in order. *)
Fixpoint scan_tls (tls : list IngressTLS) (host : string) : string :=
  match tls with
  | [] => "http"
  | t :: rest =>
      if negb (Nat.eqb (length (tls_Hosts t)) 0) && StringsContain (tls_Hosts t) host
      then "https"
      else if Nat.eqb (length (tls_Hosts t)) 0 then "https"
      else scan_tls rest host
  end.

Definition getAppProtocol (ingress : Ingress) (host : string) : string :=
  if negb (Nat.eqb (length (ing_TLS ingress)) 0) then scan_tls (ing_TLS ingress) host
  else "http".

(** [getEndpointPort]: [port > 0 && err == nil] on [strconv.Atoi]. *)
Definition annotation_port (ingress : Ingress) (key : string) (dflt : Z) : Z :=
  match Atoi (map_index (Annotations (ing_Meta ingress)) key) with
  | Some port => if 0 <? port then port else dflt
  | None => dflt
  end.

Definition getEndpointPort (ingress : Ingress) (appProtocol : string) : Z :=
  if str_eqb appProtocol "https" then annotation_port ingress AnnoIngressControllerHTTPSPort 443
  else annotation_port ingress AnnoIngressControllerHTTPPort 80.

Definition ingress_ref (ingress : Ingress) : ObjectReference :=
  {| ref_Kind := ing_Kind ingress;
     ref_Namespace := Namespace (ing_Meta ingress);
     ref_Name := Name (ing_Meta ingress);
     ref_UID := UID (ing_Meta ingress);
     ref_APIVersion := ing_APIVersion ingress;
     ref_ResourceVersion := ResourceVersion (ing_Meta ingress) |}.

(** One iteration of the loop over [Spec.Rules]; the port is converted with
    [int32(appPort)]. *)
Definition rule_endpoints (ingress : Ingress) (rule : IngressRule) : list ServiceEndpoint :=
  let appProtocol := getAppProtocol ingress (rule_Host rule) in
  let appPort := getEndpointPort ingress appProtocol in
  match rule_HTTP rule with
  | Some paths =>
      map (fun path =>
             {| se_Endpoint := {| Protocol := ProtocolTCP;
                                  AppProtocol := Some appProtocol;
                                  Host := rule_Host rule;
                                  Path := hp_Path path;
                                  Port := int32_of appPort |};
                se_Ref := ingress_ref ingress |}) paths
  | None => []
  end.

Definition generatorFromIngress (ingress : Ingress) : list ServiceEndpoint :=
  flat_map (rule_endpoints ingress) (ing_Rules ingress).

(** ** [ServiceEndpoint.String] *)

Definition ServiceEndpoint_String (s : ServiceEndpoint) : string :=
  let e := se_Endpoint s in
  let protocol := match AppProtocol e with
                  | Some p => p
                  | None => ToLower (Protocol e)
                  end in
  let path := if str_eqb (Path e) "/" then "" else Path e in
  if (str_eqb protocol "https" && (Port e =? 443)) || (str_eqb protocol "http" && (Port e =? 80))
  then protocol +:+ "://" +:+ Host e +:+ path
  else protocol +:+ "://" +:+ Host e +:+ ":" +:+ fmt_d (Port e) +:+ path.

(** ** [CollectPods]: choice of the pod collector *)

Record GroupVersionKind := mkGVK { Group : string; Version : string; Kind : string }.

Definition gvk_eqb (a b : GroupVersionKind) : bool :=
  str_eqb (Group a) (Group b) && str_eqb (Version a) (Version b) && str_eqb (Kind a) (Kind b).

Definition HelmReleaseKind : string := "HelmRelease".

Definition fluxcdGroupVersion_Group : string := "helm.toolkit.fluxcd.io".
Definition fluxcdGroupVersion_Version : string := "v2beta1".

(** [fluxcdGroupVersion.WithKind(HelmReleaseKind)] *)
Definition fluxcdHelmReleaseGVK : GroupVersionKind :=
  mkGVK fluxcdGroupVersion_Group fluxcdGroupVersion_Version HelmReleaseKind.

(** The collectors a [PodCollector] value can be. *)
Inductive PodCollector :=
| helmReleasePodCollector
| genericPodCollector (gvk : GroupVersionKind).

(** Modelled from the spec: [NewPodCollector] (collector.go, not among the
    sources) returns the generic pod collector, which derives a selector
    from the object itself, for every group/version/kind. *)
Definition NewPodCollector (gvk : GroupVersionKind) : PodCollector :=
  genericPodCollector gvk.

(** The [switch obj.GroupVersionKind()] of [CollectPods]: Go compares the
    three fields of the struct. *)
Definition selectPodCollector (gvk : GroupVersionKind) : PodCollector :=
  if gvk_eqb gvk fluxcdHelmReleaseGVK then helmReleasePodCollector
  else NewPodCollector gvk.

(** ** [GeneratorServiceEndpoints] *)

(** Outcome of a [client.Get]. *)
Inductive GetResult (A : Type) :=
| Found (a : A)
| NotFound
| GetErr (msg : string).
Arguments Found {A} a.
Arguments NotFound {A}.
Arguments GetErr {A} msg.

(** An entry of [app.Status.AppliedResources]; [Group] and [Version] are
    those of [resource.GroupVersionKind()]. *)
Record AppliedResource := mkAppliedResource {
  ar_Cluster : string;
  ar_Namespace : string;
  ar_Name : string;
  ar_Group : string;
  ar_Version : string;
  ar_Kind : string;
  ar_Component : string
}.

Record Application := mkApplication { AppliedResources : list AppliedResource }.

Record FilterOption := mkFilterOption {
  f_Cluster : string;
  f_ClusterNamespace : string;
  f_Components : list string
}.

Record Option := mkOption { opt_Name : string; opt_Namespace : string; opt_Filter : FilterOption }.

(** [networkv1beta1.GroupName] *)
Definition networkGroupName : string := "networking.k8s.io".

(** [schema.GroupVersion.String()]: the core group is written as the bare
    version. *)
Definition gv_string (group version : string) : string :=
  if str_eqb group "" then version else group +:+ "/" +:+ version.

(** The objects [findResource] leaves behind when the Get reports NotFound:
    the zero value with type meta, name and namespace set. *)
Definition empty_meta (name namespace : string) : ObjectMeta :=
  mkObjectMeta name namespace "" "" ∅.

Inductive HandlerResult :=
| HandlerErr (msg : string)          (* the Go handler returns an error *)
| FilledList (l : list ServiceEndpoint).  (* [v.FillObject(serviceEndpoints, "list")] *)

Section ServiceEndpoints.
(** The cluster store, as seen through [findResource] and the helm-release
    collector (external collaborators), and the resource filter
    [isResourceInTargetCluster] (not among the sources). *)
Variable getApp : string -> string -> GetResult Application.
Variable getIngress : string -> string -> string -> GetResult Ingress.
Variable getService : string -> string -> string -> GetResult Service.
Variable collectServices : AppliedResource -> list Service * option string.
Variable collectIngress : AppliedResource -> list Ingress * option string.
Variable isResourceInTargetCluster : FilterOption -> AppliedResource -> bool.

Definition ingress_version_supported (r : AppliedResource) : bool :=
  str_eqb (ar_Group r) networkGroupName
  && (str_eqb (ar_Version r) "v1beta1" || str_eqb (ar_Version r) "v1").

(** One iteration of the loop; [continue] and the logged-and-ignored
    branches contribute no endpoint. *)
Definition resource_endpoints (r : AppliedResource) : list ServiceEndpoint :=
  if str_eqb (ar_Kind r) "Ingress" then
    if ingress_version_supported r then
      match getIngress (ar_Cluster r) (ar_Namespace r) (ar_Name r) with
      | Found ing => generatorFromIngress ing
      | NotFound =>
          generatorFromIngress
            (mkIngress (ar_Kind r) (gv_string (ar_Group r) (ar_Version r))
                       (empty_meta (ar_Name r) (ar_Namespace r)) [] [])
      | GetErr _ => []
      end
    else []
  else if str_eqb (ar_Kind r) "Service" then
    match getService (ar_Cluster r) (ar_Namespace r) (ar_Name r) with
    | Found svc => generatorFromService svc
    | NotFound =>
        generatorFromService
          (mkService (ar_Kind r) (gv_string (ar_Group r) (ar_Version r))
                     (empty_meta (ar_Name r) (ar_Namespace r)) "" [] [])
    | GetErr _ => []
    end
  else if str_eqb (ar_Kind r) HelmReleaseKind then
    flat_map generatorFromService (fst (collectServices r))
    ++ flat_map generatorFromIngress (fst (collectIngress r))
  else [].

Fixpoint collect_endpoints (opt : Option) (rs : list AppliedResource) : list ServiceEndpoint :=
  match rs with
  | [] => []
  | r :: rest =>
      (if isResourceInTargetCluster (opt_Filter opt) r then resource_endpoints r else [])
      ++ collect_endpoints opt rest
  end.

Definition GeneratorServiceEndpoints (opt : Option) : HandlerResult :=
  let app := match getApp (opt_Namespace opt) (opt_Name opt) with
             | Found a => inl a
             | NotFound => inl (mkApplication [])
             | GetErr msg => inr msg
             end in
  match app with
  | inl a => FilledList (collect_endpoints opt (AppliedResources a))
  | inr msg => HandlerErr ("query app failure " +:+ msg)
  end.
End ServiceEndpoints.

(** ** [CollectLogsInPod] *)

(** [regexp.MustCompile("previous terminated container .+ in pod .+ not
    found").MatchString]: an unanchored search; [.] matches any character
    but a newline. *)
Inductive ReItem := ReLit (l : list ascii) | ReDotPlus.

Definition terminatedContainerNotFoundRegex : list ReItem :=
  [ ReLit (String.list_ascii_of_string "previous terminated container ");
    ReDotPlus;
    ReLit (String.list_ascii_of_string " in pod ");
    ReDotPlus;
    ReLit (String.list_ascii_of_string " not found") ].

Fixpoint strip_prefix (l s : list ascii) : option (list ascii) :=
  match l, s with
  | [], _ => Some s
  | a :: l', b :: s' => if Ascii.eqb a b then strip_prefix l' s' else None
  | _ :: _, [] => None
  end.

Definition newline : ascii := Ascii.ascii_of_nat 10.

(** Does a prefix of [s] match the items? *)
Fixpoint re_match_prefix (p : list ReItem) (s : list ascii) : bool :=
  match p with
  | [] => true
  | ReLit l :: p' =>
      match strip_prefix l s with
      | Some s' => re_match_prefix p' s'
      | None => false
      end
  | ReDotPlus :: p' =>
      (fix go (s : list ascii) : bool :=
         match s with
         | [] => false
         | c :: s' => negb (Ascii.eqb c newline) && (re_match_prefix p' s' || go s')
         end) s
  end.

Fixpoint re_search (p : list ReItem) (s : list ascii) : bool :=
  re_match_prefix p s || match s with [] => false | _ :: s' => re_search p s' end.

Definition MatchString (p : list ReItem) (s : string) : bool :=
  re_search p (String.list_ascii_of_string s).

(** [isTerminatedContainerNotFound]: [err] is [None] for a nil error,
    otherwise its message. *)
Definition isTerminatedContainerNotFound (err : option string) : bool :=
  match err with
  | Some msg => MatchString terminatedContainerNotFoundRegex msg
  | None => false
  end.

(** A [metav1.Time] as nanoseconds; [Time.Add] is addition (Go's [Time.Add]
    only saturates beyond 2^63 seconds, which an [int64] duration added to a
    current time does not reach). *)
Definition Time := Z.
Definition Time_Add (t : Time) (d : Z) : Time := t + d.

(** [time.Second], a [time.Duration] in nanoseconds. *)
Definition Second : Z := 1000000000.

Record PodLogOptions := mkPodLogOptions {
  SinceSeconds : option Z;   (* *int64 *)
  SinceTime : option Time    (* *metav1.Time *)
}.

Record Pod := mkPod { CreationTimestamp : Time }.

(** The log stream [req.Stream] opens: either an error, or a reader whose
    [ReadString] calls deliver [stream_data] and then stop at [io.EOF]
    ([stream_end = None]) or at another error. *)
Inductive StreamResult :=
| StreamFailed (msg : string)
| StreamOpened (stream_data : string) (stream_end : option string).

Record LogOutputs := mkLogOutputs {
  logs : string;
  fromDate : Time;
  toDate : Time;
  out_err : option string   (* the "err" key, set when [readErr != nil] *)
}.

Inductive LogsResult :=
| LogsErr (msg : string)          (* the handler returns an error *)
| LogsFilled (o : LogOutputs).    (* [v.FillObject(o, "outputs")] *)

(** The window computation of [CollectLogsInPod]:
    the negation of [opts.SinceSeconds] and its product with
    [int64(time.Second)] are [int64] arithmetic. *)
Definition log_fromDate (opts : PodLogOptions) (podInst : Pod) (toDate : Time) : Time :=
  match SinceTime opts with
  | Some t => t
  | None =>
      match SinceSeconds opts with
      | Some s => Time_Add toDate (int64_of (int64_of (- s) * Second))
      | None => CreationTimestamp podInst
      end
  end.

(** [CollectLogsInPod] from the pod lookup on: [pod] is the outcome of
    [Pods(namespace).Get], [stream] that of [req.Stream], [now] the value of
    [v1.Now()]. *)
Definition CollectLogsInPod (opts : PodLogOptions) (pod : GetResult Pod)
    (stream : StreamResult) (now : Time) : LogsResult :=
  match pod with
  | NotFound => LogsErr "failed to get pod: not found"
  | GetErr msg => LogsErr ("failed to get pod: " +:+ msg)
  | Found podInst =>
      let err := match stream with StreamFailed m => Some m | StreamOpened _ _ => None end in
      if (match err with Some _ => true | None => false end) && negb (isTerminatedContainerNotFound err)
      then LogsErr ("failed to get stream logs: " +:+ default "" err)
      else
        let '(text, readErr) :=
          match stream with
          | StreamOpened data end_err => (data, end_err)
          | StreamFailed m => ("", Some m)
          end in
        let toDate := now in
        LogsFilled {| logs := text;
                      fromDate := log_fromDate opts podInst toDate;
                      toDate := toDate;
                      out_err := readErr |}
  end.

(** * Properties *)

Lemma str_eqb_eq (a b : string) : str_eqb a b = true <-> a = b.
Proof. unfold str_eqb. apply String.eqb_eq. Qed.

Lemma str_eqb_refl (a : string) : str_eqb a a = true.
Proof. apply str_eqb_eq. reflexivity. Qed.

Lemma str_neqb (a b : string) : str_eqb a b = false <-> a <> b.
Proof.
  split.
  - intros H E. apply str_eqb_eq in E. congruence.
  - intros H. destruct (str_eqb a b) eqn:E; [apply str_eqb_eq in E; contradiction | reflexivity].
Qed.

Lemma length_flat_map {A B} (f : A -> list B) (l : list A) :
  length (flat_map f l) = fold_right (fun a n => (length (f a) + n)%nat) 0%nat l.
Proof. induction l as [|a l IH]; simpl; [reflexivity|]. rewrite List.length_app, IH. reflexivity. Qed.

(** ** Service endpoints *)

Definition nonempty_count (s : string) : nat := if str_eqb s "" then 0 else 1.

(** Endpoints one load-balancer ingress entry gives for each port. *)
Definition lb_entry_count (ingress : LoadBalancerIngress) : nat :=
  (nonempty_count (Hostname ingress) + nonempty_count (IP ingress))%nat.

Lemma lb_endpoints_length service port ingress :
  length (lb_endpoints service port ingress) = lb_entry_count ingress.
Proof.
  unfold lb_endpoints, lb_entry_count, nonempty_count.
  destruct (str_eqb (Hostname ingress) ""), (str_eqb (IP ingress) ""); reflexivity.
Qed.

Definition lb_endpoint (service : Service) (port : ServicePort) (host : string) : ServiceEndpoint :=
  {| se_Endpoint := {| Protocol := sp_Protocol port; AppProtocol := None;
                       Host := host; Port := sp_Port port; Path := "" |};
     se_Ref := service_ref service |}.

Lemma in_lb_endpoints service port ingress se :
  In se (lb_endpoints service port ingress) <->
  ((Hostname ingress <> "" /\ se = lb_endpoint service port (Hostname ingress))
   \/ (IP ingress <> "" /\ se = lb_endpoint service port (IP ingress))).
Proof.
  unfold lb_endpoints.
  destruct (str_eqb (Hostname ingress) "") eqn:Eh, (str_eqb (IP ingress) "") eqn:Ei;
    apply str_eqb_eq in Eh || apply str_neqb in Eh;
    apply str_eqb_eq in Ei || apply str_neqb in Ei; simpl;
    unfold lb_endpoint; split; intros H;
    repeat match goal with
           | H : _ \/ _ |- _ => destruct H
           | H : _ /\ _ |- _ => destruct H
           | H : False |- _ => contradiction
           end; subst; try contradiction; intuition congruence.
Qed.

Definition lb_ingress_count (service : Service) : nat :=
  fold_right (fun i n => (lb_entry_count i + n)%nat) 0%nat (svc_LBIngress service).

Lemma lb_port_length service port :
  length (flat_map (lb_endpoints service port) (svc_LBIngress service)) = lb_ingress_count service.
Proof.
  rewrite length_flat_map. unfold lb_ingress_count.
  induction (svc_LBIngress service) as [|i l IH]; simpl; [reflexivity|].
  rewrite lb_endpoints_length, IH. reflexivity.
Qed.

(** C1 (as amended).  For a LoadBalancer Service, each (service port,
    load-balancer ingress entry) pair gives one endpoint whose host is the
    entry's hostname when that is non-empty and one whose host is the entry's
    IP when that is non-empty; each endpoint carries the service port's
    protocol and port (not the node port). *)
Theorem generatorFromService_loadbalancer (service : Service)
    (HT : svc_Type service = ServiceTypeLoadBalancer) :
  length (generatorFromService service)
    = (length (svc_Ports service) * lb_ingress_count service)%nat
  /\ (forall se, In se (generatorFromService service) <->
       exists port ingress,
         In port (svc_Ports service) /\ In ingress (svc_LBIngress service) /\
         ((Hostname ingress <> "" /\ se = lb_endpoint service port (Hostname ingress))
          \/ (IP ingress <> "" /\ se = lb_endpoint service port (IP ingress)))).
Proof.
  unfold generatorFromService. rewrite HT, str_eqb_refl. split.
  - rewrite length_flat_map.
    induction (svc_Ports service) as [|p ps IH]; simpl; [reflexivity|].
    rewrite lb_port_length, IH. reflexivity.
  - intros se. rewrite List.in_flat_map. split.
    + intros [port [Hp Hin]]. apply List.in_flat_map in Hin as [ing [Hi Hse]].
      apply in_lb_endpoints in Hse. exists port, ing. auto.
    + intros [port [ing [Hp [Hi Hse]]]]. exists port. split; [exact Hp|].
      apply List.in_flat_map. exists ing. split; [exact Hi|].
      apply in_lb_endpoints. exact Hse.
Qed.

Definition c1_meta : ObjectMeta := mkObjectMeta "web" "default" "" "" ∅.

(** A LoadBalancer Service with one port and one ingress entry that has
    both a hostname and an IP. *)
Definition c1_service : Service :=
  mkService "Service" "v1" c1_meta ServiceTypeLoadBalancer
            [mkServicePort "TCP" 80 30080]
            [mkLoadBalancerIngress "10.0.0.1" "lb.example.com"].

Lemma generatorFromService_loadbalancer_witness :
  svc_Type c1_service = ServiceTypeLoadBalancer /\
  length (generatorFromService c1_service)
    = (length (svc_Ports c1_service) * lb_ingress_count c1_service)%nat.
Proof.
  split; [reflexivity|].
  apply (proj1 (generatorFromService_loadbalancer c1_service eq_refl)).
Defined.

(** C1 as stated fails: the single (port, entry) pair of [c1_service] gives
    two endpoints, one per host field, not exactly one. *)
Lemma generatorFromService_loadbalancer_two_per_pair :
  generatorFromService c1_service
    = [lb_endpoint c1_service (mkServicePort "TCP" 80 30080) "lb.example.com";
       lb_endpoint c1_service (mkServicePort "TCP" 80 30080) "10.0.0.1"]
  /\ length (generatorFromService c1_service)
     <> (length (svc_Ports c1_service) * length (svc_LBIngress c1_service))%nat.
Proof. split; [reflexivity | simpl; discriminate]. Qed.

Definition host_port (se : ServiceEndpoint) : string * Z :=
  (Host (se_Endpoint se), Port (se_Endpoint se)).

(** C5.  A NodePort Service gives one endpoint per service port, in port
    order, with an empty host and the port's node port; a ClusterIP or
    ExternalName Service gives no endpoint. *)
Theorem generatorFromService_nodeport_clusterip :
  (forall kind apiVersion meta ports lb,
     map host_port (generatorFromService
                      (mkService kind apiVersion meta ServiceTypeNodePort ports lb))
     = map (fun port => ("", sp_NodePort port)) ports)
  /\ (forall kind apiVersion meta ports lb,
        generatorFromService (mkService kind apiVersion meta ServiceTypeClusterIP ports lb) = [])
  /\ (forall kind apiVersion meta ports lb,
        generatorFromService (mkService kind apiVersion meta ServiceTypeExternalName ports lb) = []).
Proof.
  split; [|split]; intros kind apiVersion meta ports lb; unfold generatorFromService; simpl.
  - rewrite List.map_map. reflexivity.
  - reflexivity.
  - reflexivity.
Qed.

(** ** Ingress endpoints *)

Definition host_path (se : ServiceEndpoint) : string * string :=
  (Host (se_Endpoint se), Path (se_Endpoint se)).

(** C2 (as amended).  An Ingress gives, in rule order, one endpoint per path
    of every rule that has an HTTP section, whatever the rule's host (an
    empty host included), carrying that host and the path; a rule without an
    HTTP section gives none. *)
Theorem generatorFromIngress_rules_paths (ingress : Ingress) :
  map host_path (generatorFromIngress ingress)
  = flat_map (fun rule => match rule_HTTP rule with
                          | Some paths => map (fun p => (rule_Host rule, hp_Path p)) paths
                          | None => []
                          end) (ing_Rules ingress).
Proof.
  unfold generatorFromIngress.
  induction (ing_Rules ingress) as [|rule rules IH]; simpl; [reflexivity|].
  rewrite List.map_app, IH. f_equal.
  unfold rule_endpoints. destruct (rule_HTTP rule) as [paths|]; [|reflexivity].
  rewrite List.map_map. reflexivity.
Qed.

(** An Ingress whose only rule has an empty host and one HTTP path. *)
Definition c2_ingress : Ingress :=
  mkIngress "Ingress" "networking.k8s.io/v1beta1" c1_meta []
            [mkIngressRule "" (Some [mkHTTPIngressPath "/api"])].

(** C2 as stated fails: the rule with an empty host still gives an endpoint
    (with an empty host). *)
Lemma generatorFromIngress_empty_host_rule :
  map host_path (generatorFromIngress c2_ingress) = [("", "/api")].
Proof. reflexivity. Qed.

(** [getAppProtocol] *)

Definition tls_covers (ingress : Ingress) (host : string) : Prop :=
  exists tls, In tls (ing_TLS ingress) /\ (In host (tls_Hosts tls) \/ tls_Hosts tls = []).

Lemma StringsContain_In items s : StringsContain items s = true <-> In s items.
Proof.
  unfold StringsContain. rewrite existsb_exists. split.
  - intros [x [Hx E]]. apply str_eqb_eq in E. subst. exact Hx.
  - intros H. exists s. split; [exact H | apply str_eqb_refl].
Qed.

Local Arguments StringsContain : simpl never.

Lemma scan_tls_spec tls host :
  (scan_tls tls host = "https" /\
     exists t, In t tls /\ (In host (tls_Hosts t) \/ tls_Hosts t = []))
  \/ (scan_tls tls host = "http" /\
     ~ exists t, In t tls /\ (In host (tls_Hosts t) \/ tls_Hosts t = [])).
Proof.
  induction tls as [|t rest IH]; simpl.
  - right. split; [reflexivity|]. intros [t [[] _]].
  - destruct (tls_Hosts t) as [|h hs] eqn:Eh; simpl.
    + left. split; [reflexivity|]. exists t. auto.
    + destruct (StringsContain (h :: hs) host) eqn:Ec; simpl.
      * left. split; [reflexivity|]. exists t. split; [auto|].
        left. rewrite Eh. apply StringsContain_In. exact Ec.
      * destruct IH as [[E Hex] | [E Hnex]].
        -- left. split; [exact E|]. destruct Hex as [t' [Ht' H']]. exists t'. auto.
        -- right. split; [exact E|]. intros [t' [[<- | Ht'] H']].
           ++ rewrite Eh in H'. destruct H' as [Hin | Hnil]; [|discriminate].
              apply StringsContain_In in Hin. congruence.
           ++ apply Hnex. exists t'. auto.
Qed.

Lemma getAppProtocol_spec ingress host :
  (getAppProtocol ingress host = "https" /\ tls_covers ingress host)
  \/ (getAppProtocol ingress host = "http" /\ ~ tls_covers ingress host).
Proof.
  unfold getAppProtocol, tls_covers.
  destruct (ing_TLS ingress) as [|t ts] eqn:E; simpl.
  - right. split; [reflexivity|]. intros [t [[] _]].
  - apply (scan_tls_spec (t :: ts)).
Qed.

Lemma in_generatorFromIngress ingress se :
  In se (generatorFromIngress ingress) ->
  exists rule, In rule (ing_Rules ingress) /\ Host (se_Endpoint se) = rule_Host rule /\
    Protocol (se_Endpoint se) = ProtocolTCP /\
    AppProtocol (se_Endpoint se) = Some (getAppProtocol ingress (rule_Host rule)) /\
    Port (se_Endpoint se)
      = int32_of (getEndpointPort ingress (getAppProtocol ingress (rule_Host rule))).
Proof.
  unfold generatorFromIngress. intros H.
  apply List.in_flat_map in H as [rule [Hr Hse]]. exists rule. split; [exact Hr|].
  unfold rule_endpoints in Hse. destruct (rule_HTTP rule) as [paths|]; [|destruct Hse].
  apply List.in_map_iff in Hse as [p [<- _]]. simpl. auto.
Qed.

(** C3.  Every Ingress endpoint has appProtocol "https" when some TLS entry of
    the Ingress lists the rule's host or has an empty host list, and "http"
    otherwise. *)
Theorem generatorFromIngress_appProtocol (ingress : Ingress) (se : ServiceEndpoint)
    (Hin : In se (generatorFromIngress ingress)) :
  (AppProtocol (se_Endpoint se) = Some "https" /\ tls_covers ingress (Host (se_Endpoint se)))
  \/ (AppProtocol (se_Endpoint se) = Some "http" /\ ~ tls_covers ingress (Host (se_Endpoint se))).
Proof.
  destruct (in_generatorFromIngress ingress se Hin) as [rule [_ [Hh [_ [Ha _]]]]].
  rewrite Ha, Hh.
  destruct (getAppProtocol_spec ingress (rule_Host rule)) as [[E H] | [E H]]; rewrite E; auto.
Qed.

(** The example of the spec: TLS for "a.example.com" only. *)
Definition c3_ingress : Ingress :=
  mkIngress "Ingress" "networking.k8s.io/v1" c1_meta
            [mkIngressTLS ["a.example.com"]]
            [mkIngressRule "a.example.com" (Some [mkHTTPIngressPath "/"]);
             mkIngressRule "b.example.com" (Some [mkHTTPIngressPath "/"])].

Definition c3_https_endpoint : ServiceEndpoint :=
  {| se_Endpoint := {| Protocol := ProtocolTCP; AppProtocol := Some "https";
                       Host := "a.example.com"; Path := "/"; Port := 443 |};
     se_Ref := ingress_ref c3_ingress |}.

Lemma generatorFromIngress_appProtocol_witness :
  In c3_https_endpoint (generatorFromIngress c3_ingress) /\
  ((AppProtocol (se_Endpoint c3_https_endpoint) = Some "https"
    /\ tls_covers c3_ingress (Host (se_Endpoint c3_https_endpoint)))
   \/ (AppProtocol (se_Endpoint c3_https_endpoint) = Some "http"
       /\ ~ tls_covers c3_ingress (Host (se_Endpoint c3_https_endpoint)))).
Proof.
  assert (H : In c3_https_endpoint (generatorFromIngress c3_ingress)) by (simpl; auto).
  split; [exact H|].
  apply (generatorFromIngress_appProtocol c3_ingress c3_https_endpoint H).
Defined.

(** An Ingress without TLS whose http-port annotation is 2^31, a positive
    integer [strconv.Atoi] accepts on a 64-bit platform. *)
Definition c4_ingress : Ingress :=
  mkIngress "Ingress" "networking.k8s.io/v1" 
            (mkObjectMeta "web" "default" "" ""
                          (<[AnnoIngressControllerHTTPPort := "2147483648"]> ∅))
            [] [mkIngressRule "a.example.com" (Some [mkHTTPIngressPath "/"])].

(** C4 fails on the code: the annotation parses as the positive integer
    2147483648, the endpoint is an "http" one, yet its port is
    [int32(2147483648)] = -2147483648 (its transport protocol is TCP). *)
Theorem generatorFromIngress_http_port_wraps :
  Atoi (map_index (Annotations (ing_Meta c4_ingress)) AnnoIngressControllerHTTPPort)
    = Some 2147483648
  /\ map (fun se => (AppProtocol (se_Endpoint se), Protocol (se_Endpoint se),
                     Port (se_Endpoint se)))
         (generatorFromIngress c4_ingress)
     = [(Some "http", ProtocolTCP, -2147483648)].
Proof. split; vm_compute; reflexivity. Qed.

(** ** [GeneratorServiceEndpoints] skips unsupported Ingress versions *)

Lemma collect_endpoints_app getIngress getService cs ci filt opt rs1 rs2 :
  collect_endpoints getIngress getService cs ci filt opt (rs1 ++ rs2)
  = collect_endpoints getIngress getService cs ci filt opt rs1
    ++ collect_endpoints getIngress getService cs ci filt opt rs2.
Proof.
  induction rs1 as [|r rs IH]; simpl; [reflexivity|].
  rewrite IH, List.app_assoc. reflexivity.
Qed.

Lemma resource_endpoints_unsupported_ingress getIngress getService cs ci r :
  ar_Kind r = "Ingress" -> ingress_version_supported r = false ->
  resource_endpoints getIngress getService cs ci r = [].
Proof.
  intros Hk Hv. unfold resource_endpoints. rewrite Hk, str_eqb_refl, Hv. reflexivity.
Qed.

Lemma ingress_version_supported_false r :
  ~ (ar_Group r = networkGroupName /\ (ar_Version r = "v1beta1" \/ ar_Version r = "v1")) ->
  ingress_version_supported r = false.
Proof.
  intros H. unfold ingress_version_supported.
  destruct (str_eqb (ar_Group r) networkGroupName) eqn:Eg; [|reflexivity].
  apply str_eqb_eq in Eg.
  destruct (str_eqb (ar_Version r) "v1beta1") eqn:E1;
    [apply str_eqb_eq in E1; exfalso; auto|].
  destruct (str_eqb (ar_Version r) "v1") eqn:E2;
    [apply str_eqb_eq in E2; exfalso; auto | reflexivity].
Qed.

(** C6.  An applied resource of kind Ingress whose group is not the network
    group or whose version is neither v1beta1 nor v1 contributes no endpoint
    and no error: the handler fills the same list as without that resource,
    the resources around it being processed as before. *)
Theorem GeneratorServiceEndpoints_unsupported_ingress
    getIngress getService collectServices collectIngress isResourceInTargetCluster
    (opt : Option) (rs1 rs2 : list AppliedResource) (r : AppliedResource)
    (Hkind : ar_Kind r = "Ingress")
    (Hunsupported : ~ (ar_Group r = networkGroupName
                       /\ (ar_Version r = "v1beta1" \/ ar_Version r = "v1"))) :
  GeneratorServiceEndpoints (fun _ _ => Found (mkApplication (rs1 ++ r :: rs2)))
    getIngress getService collectServices collectIngress isResourceInTargetCluster opt
  = GeneratorServiceEndpoints (fun _ _ => Found (mkApplication (rs1 ++ rs2)))
    getIngress getService collectServices collectIngress isResourceInTargetCluster opt
  /\ GeneratorServiceEndpoints (fun _ _ => Found (mkApplication (rs1 ++ r :: rs2)))
    getIngress getService collectServices collectIngress isResourceInTargetCluster opt
  = FilledList (collect_endpoints getIngress getService collectServices collectIngress
                  isResourceInTargetCluster opt (rs1 ++ rs2)).
Proof.
  assert (E : collect_endpoints getIngress getService collectServices collectIngress
                isResourceInTargetCluster opt (rs1 ++ r :: rs2)
              = collect_endpoints getIngress getService collectServices collectIngress
                isResourceInTargetCluster opt (rs1 ++ rs2)).
  { rewrite !collect_endpoints_app. f_equal. simpl.
    rewrite (resource_endpoints_unsupported_ingress _ _ _ _ r Hkind
               (ingress_version_supported_false r Hunsupported)).
    destruct (isResourceInTargetCluster (opt_Filter opt) r); reflexivity. }
  unfold GeneratorServiceEndpoints. simpl. rewrite E. split; reflexivity.
Qed.

(** An extensions/v1beta1 Ingress between two Services, all NodePort. *)
Definition c6_resource (kind group version name : string) : AppliedResource :=
  mkAppliedResource "" "default" name group version kind "web".

Definition c6_service (name : string) : Service :=
  mkService "Service" "v1" (mkObjectMeta name "default" "" "" ∅) ServiceTypeNodePort
            [mkServicePort "TCP" 80 30080] [].

Definition c6_app_resources : list AppliedResource :=
  [c6_resource "Service" "" "v1" "a";
   c6_resource "Ingress" "extensions" "v1beta1" "ing";
   c6_resource "Service" "" "v1" "b"].

Definition c6_run (rs : list AppliedResource) : HandlerResult :=
  GeneratorServiceEndpoints (fun _ _ => Found (mkApplication rs))
    (fun _ _ _ => GetErr "unexpected")
    (fun _ _ name => Found (c6_service name))
    (fun _ => ([], None)) (fun _ => ([], None))
    (fun _ _ => true)
    (mkOption "app" "default" (mkFilterOption "" "" [])).

Lemma GeneratorServiceEndpoints_unsupported_ingress_witness :
  ar_Kind (c6_resource "Ingress" "extensions" "v1beta1" "ing") = "Ingress" /\
  c6_run c6_app_resources
  = c6_run [c6_resource "Service" "" "v1" "a"; c6_resource "Service" "" "v1" "b"].
Proof.
  split; [reflexivity|].
  refine (proj1 (GeneratorServiceEndpoints_unsupported_ingress _ _ _ _ _ _
                   [c6_resource "Service" "" "v1" "a"] [c6_resource "Service" "" "v1" "b"]
                   (c6_resource "Ingress" "extensions" "v1beta1" "ing") eq_refl _)).
  simpl. intros [Hg _]. discriminate Hg.
Defined.

(** ** Log window and stream conditions *)

(** When the stream opens, the window's [from] follows the precedence
    since-time, since-seconds, creation timestamp, and [to] is [now]; with a
    since-seconds value whose nanosecond count fits in [int64], [from] is
    [now] minus that many seconds. *)
Lemma CollectLogsInPod_window opts podInst data end_err now :
  CollectLogsInPod opts (Found podInst) (StreamOpened data end_err) now
  = LogsFilled {| logs := data; fromDate := log_fromDate opts podInst now;
                  toDate := now; out_err := end_err |}.
Proof. reflexivity. Qed.

Lemma wrap_signed_small w x :
  0 < w -> - 2 ^ (w - 1) <= x < 2 ^ (w - 1) -> wrap_signed w x = x.
Proof.
  intros Hw Hx. unfold wrap_signed, two_pow.
  assert (Hp : 2 ^ w = 2 * 2 ^ (w - 1)).
  { replace w with (Z.succ (w - 1)) at 1 by lia. apply Z.pow_succ_r. lia. }
  destruct (Z_lt_le_dec x 0) as [Hneg | Hpos].
  - rewrite <- (Z.mod_unique x (2 ^ w) (-1) (x + 2 ^ w)) by (try left; lia).
    destruct (Z.ltb_spec (x + 2 ^ w) (2 ^ (w - 1))); lia.
  - rewrite Z.mod_small by lia.
    destruct (Z.ltb_spec x (2 ^ (w - 1))); lia.
Qed.

Lemma log_fromDate_in_range opts podInst now s :
  SinceTime opts = None -> SinceSeconds opts = Some s ->
  MinInt64 <= - s * Second <= MaxInt64 ->
  log_fromDate opts podInst now = now - s * Second.
Proof.
  intros Ht Hs Hr. unfold log_fromDate. rewrite Ht, Hs.
  unfold Time_Add, int64_of, MinInt64, MaxInt64, Second in *.
  rewrite (wrap_signed_small 64 (- s)) by (simpl; lia).
  rewrite (wrap_signed_small 64 (- s * 1000000000)) by (simpl; lia).
  lia.
Qed.

(** Since-seconds 10^10 (about 317 years), no since-time, at the instant
    1700000000 s after the epoch. *)
Definition c7_now : Time := 1700000000 * Second.
Definition c7_opts : PodLogOptions := mkPodLogOptions (Some 10000000000) None.
Definition c7_pod : Pod := mkPod (1600000000 * Second).

(** C7 fails on the code: with since-seconds 10^10 the [int64] product
    [-(10^10) * 10^9] wraps to a positive duration, so [from] lies about 267
    years after [to] instead of 10^10 seconds before it. *)
Theorem CollectLogsInPod_since_seconds_overflow :
  CollectLogsInPod c7_opts (Found c7_pod) (StreamOpened "" None) c7_now
  = LogsFilled {| logs := ""; fromDate := c7_now + 8446744073709551616;
                  toDate := c7_now; out_err := None |}
  /\ c7_now + 8446744073709551616 <> c7_now - 10000000000 * Second.
Proof. split; [vm_compute; reflexivity | unfold c7_now, Second; lia]. Qed.

(** A message of the recognised condition, as the API server words it
    (without the quotes around the names). *)
Definition c8_msg : string :=
  "previous terminated container app in pod web-0 not found".

(** C8 as stated fails: on the recognised condition the handler does not
    fail, its text is empty, but its "err" field carries the message. *)
Lemma CollectLogsInPod_terminated_not_found_err :
  CollectLogsInPod (mkPodLogOptions None None) (Found c7_pod) (StreamFailed c8_msg) c7_now
  = LogsFilled {| logs := ""; fromDate := CreationTimestamp c7_pod; toDate := c7_now;
                  out_err := Some c8_msg |}.
Proof. vm_compute. reflexivity. Qed.

(** C8 (as amended).  When opening the stream fails with the recognised
    "previous terminated container ... not found" condition, the handler
    does not fail: it fills a result with empty text, the usual window, and
    the stream error's message in its "err" field. *)
Theorem CollectLogsInPod_terminated_not_found opts podInst msg now
    (Hmatch : isTerminatedContainerNotFound (Some msg) = true) :
  CollectLogsInPod opts (Found podInst) (StreamFailed msg) now
  = LogsFilled {| logs := ""; fromDate := log_fromDate opts podInst now;
                  toDate := now; out_err := Some msg |}.
Proof. unfold CollectLogsInPod. rewrite Hmatch. reflexivity. Qed.

Lemma CollectLogsInPod_terminated_not_found_witness :
  isTerminatedContainerNotFound (Some c8_msg) = true /\
  CollectLogsInPod (mkPodLogOptions None None) (Found c7_pod) (StreamFailed c8_msg) c7_now
  = LogsFilled {| logs := ""; fromDate := log_fromDate (mkPodLogOptions None None) c7_pod c7_now;
                  toDate := c7_now; out_err := Some c8_msg |}.
Proof.
  assert (H : isTerminatedContainerNotFound (Some c8_msg) = true) by (vm_compute; reflexivity).
  split; [exact H|].
  exact (CollectLogsInPod_terminated_not_found _ _ _ _ H).
Defined.

(** ** Pod collector dispatch *)

Lemma gvk_eqb_eq a b : gvk_eqb a b = true <-> a = b.
Proof.
  destruct a as [g v k], b as [g' v' k']. unfold gvk_eqb. simpl.
  rewrite !andb_true_iff, !str_eqb_eq. split.
  - intros [[-> ->] ->]. reflexivity.
  - intros E. injection E as -> -> ->. auto.
Qed.

(** C9.  [CollectPods] takes the helm-release pod collector exactly for the
    group/version/kind helm.toolkit.fluxcd.io/v2beta1 HelmRelease, and the
    generic pod collector for every other one (a HelmRelease of another
    group or version included). *)
Theorem selectPodCollector_dispatch (gvk : GroupVersionKind) :
  (gvk = mkGVK "helm.toolkit.fluxcd.io" "v2beta1" "HelmRelease"
   /\ selectPodCollector gvk = helmReleasePodCollector)
  \/ (gvk <> mkGVK "helm.toolkit.fluxcd.io" "v2beta1" "HelmRelease"
      /\ selectPodCollector gvk = genericPodCollector gvk).
Proof.
  unfold selectPodCollector, NewPodCollector.
  destruct (gvk_eqb gvk fluxcdHelmReleaseGVK) eqn:E.
  - left. apply gvk_eqb_eq in E. split; [exact E | reflexivity].
  - right. split; [|reflexivity]. intros H. subst gvk.
    rewrite (proj2 (gvk_eqb_eq _ _) eq_refl) in E. discriminate.
Qed.

(** ** Endpoint URL *)

(** The URL as the claim words it: the scheme is the appProtocol when set,
    else the lowercased transport protocol; a path "/" is dropped; the port
    is omitted exactly for (https, 443) and (http, 80). *)
Definition url_scheme (e : Endpoint) : string :=
  match AppProtocol e with Some p => p | None => ToLower (Protocol e) end.

Definition url_path (e : Endpoint) : string :=
  if str_eqb (Path e) "/" then "" else Path e.

Definition default_port_for (scheme : string) (port : Z) : Prop :=
  (scheme = "https" /\ port = 443) \/ (scheme = "http" /\ port = 80).

(** C10.  [ServiceEndpoint.String] renders scheme, "://", host, then
    ":" and the decimal port unless (scheme, port) is (https, 443) or
    (http, 80), then the path with "/" rendered as "". *)
Theorem ServiceEndpoint_String_url (se : ServiceEndpoint) :
  let e := se_Endpoint se in
  (default_port_for (url_scheme e) (Port e) ->
   ServiceEndpoint_String se = url_scheme e +:+ "://" +:+ Host e +:+ url_path e)
  /\ (~ default_port_for (url_scheme e) (Port e) ->
      ServiceEndpoint_String se
      = url_scheme e +:+ "://" +:+ Host e +:+ ":" +:+ fmt_d (Port e) +:+ url_path e).
Proof.
  intros e. unfold ServiceEndpoint_String, default_port_for. fold e.
  change (match AppProtocol e with Some p => p | None => ToLower (Protocol e) end)
    with (url_scheme e).
  change (if str_eqb (Path e) "/" then "" else Path e) with (url_path e).
  destruct (str_eqb (url_scheme e) "https" && (Port e =? 443)
            || str_eqb (url_scheme e) "http" && (Port e =? 80)) eqn:E;
    rewrite ?orb_true_iff, ?orb_false_iff, ?andb_true_iff, ?andb_false_iff,
            ?str_eqb_eq, ?str_neqb, ?Z.eqb_eq, ?Z.eqb_neq in E.
  - split; [reflexivity|]. intros Hn. exfalso. apply Hn. exact E.
  - split; [|reflexivity]. intros Hd. exfalso.
    destruct E as [E1 E2]. destruct Hd as [[A B] | [A B]];
      [destruct E1 as [X|X] | destruct E2 as [X|X]]; congruence.
Qed.

(** * Further properties of the query provider *)

(** ** [GeneratorServiceEndpoints]: the application lookup and the loop *)

(** A missing application is no error: [findResource] swallows NotFound,
    the zero application has no applied resources, and the handler fills an
    empty list.  Any other lookup error makes the handler fail with
    "query app failure" and the error's message. *)
Theorem GeneratorServiceEndpoints_app_lookup
    getApp getIngress getService collectServices collectIngress isResourceInTargetCluster
    (opt : Option) :
  (getApp (opt_Namespace opt) (opt_Name opt) = NotFound ->
   GeneratorServiceEndpoints getApp getIngress getService collectServices collectIngress
     isResourceInTargetCluster opt = FilledList [])
  /\ (forall msg, getApp (opt_Namespace opt) (opt_Name opt) = GetErr msg ->
      GeneratorServiceEndpoints getApp getIngress getService collectServices collectIngress
        isResourceInTargetCluster opt = HandlerErr ("query app failure " +:+ msg)).
Proof.
  unfold GeneratorServiceEndpoints. split.
  - intros H. rewrite H. reflexivity.
  - intros msg H. rewrite H. reflexivity.
Qed.

(** The handler's list is, in the application's recorded order, the
    endpoints of each applied resource the filter keeps; a resource the
    filter rejects contributes nothing. *)
Theorem collect_endpoints_filter getIngress getService collectServices collectIngress
    isResourceInTargetCluster (opt : Option) (rs : list AppliedResource) :
  collect_endpoints getIngress getService collectServices collectIngress
    isResourceInTargetCluster opt rs
  = flat_map (resource_endpoints getIngress getService collectServices collectIngress)
             (List.filter (isResourceInTargetCluster (opt_Filter opt)) rs).
Proof.
  induction rs as [|r rs IH]; simpl; [reflexivity|].
  destruct (isResourceInTargetCluster (opt_Filter opt) r); simpl; rewrite IH; reflexivity.
Qed.

(** Applied resources of any kind other than Ingress, Service and
    HelmRelease (a Deployment, a ConfigMap, ...) give no endpoint. *)
Theorem resource_endpoints_other_kind getIngress getService collectServices collectIngress
    (r : AppliedResource)
    (Hkind : ar_Kind r <> "Ingress" /\ ar_Kind r <> "Service" /\ ar_Kind r <> "HelmRelease") :
  resource_endpoints getIngress getService collectServices collectIngress r = [].
Proof.
  destruct Hkind as [H1 [H2 H3]]. unfold resource_endpoints, HelmReleaseKind.
  apply str_neqb in H1, H2, H3. rewrite H1, H2, H3. reflexivity.
Qed.

Definition x_resource_deployment : AppliedResource :=
  mkAppliedResource "" "default" "web" "apps" "v1" "Deployment" "web".

Lemma resource_endpoints_other_kind_witness :
  (ar_Kind x_resource_deployment <> "Ingress" /\ ar_Kind x_resource_deployment <> "Service"
   /\ ar_Kind x_resource_deployment <> "HelmRelease") /\
  resource_endpoints (fun _ _ _ => NotFound) (fun _ _ _ => NotFound)
    (fun _ => ([], None)) (fun _ => ([], None)) x_resource_deployment = [].
Proof.
  assert (H : ar_Kind x_resource_deployment <> "Ingress" /\ ar_Kind x_resource_deployment <> "Service"
              /\ ar_Kind x_resource_deployment <> "HelmRelease")
    by (simpl; repeat split; discriminate).
  split; [exact H|]. exact (resource_endpoints_other_kind _ _ _ _ _ H).
Defined.

(** A Service or supported Ingress that the lookup does not find, or whose
    lookup fails, gives no endpoint (the failure is logged and the loop
    goes on). *)
Theorem resource_endpoints_lookup_missing getIngress getService collectServices collectIngress
    (r : AppliedResource)
    (Hmiss : (ar_Kind r = "Service" /\
              (getService (ar_Cluster r) (ar_Namespace r) (ar_Name r) = NotFound
               \/ exists msg, getService (ar_Cluster r) (ar_Namespace r) (ar_Name r) = GetErr msg))
             \/ (ar_Kind r = "Ingress" /\
              (getIngress (ar_Cluster r) (ar_Namespace r) (ar_Name r) = NotFound
               \/ exists msg, getIngress (ar_Cluster r) (ar_Namespace r) (ar_Name r) = GetErr msg))) :
  resource_endpoints getIngress getService collectServices collectIngress r = [].
Proof.
  unfold resource_endpoints.
  destruct Hmiss as [[Hk Hg] | [Hk Hg]]; rewrite Hk.
  - assert (Hne : str_eqb "Service" "Ingress" = false) by reflexivity.
    rewrite Hne, str_eqb_refl.
    destruct Hg as [-> | [msg ->]]; reflexivity.
  - rewrite str_eqb_refl. destruct (ingress_version_supported r); [|reflexivity].
    destruct Hg as [-> | [msg ->]]; reflexivity.
Qed.

Definition x_resource_service : AppliedResource :=
  mkAppliedResource "member-1" "default" "web" "" "v1" "Service" "web".

Lemma resource_endpoints_lookup_missing_witness :
  resource_endpoints (fun _ _ _ => NotFound) (fun _ _ _ => GetErr "timeout")
    (fun _ => ([], None)) (fun _ => ([], None)) x_resource_service = [].
Proof.
  apply (resource_endpoints_lookup_missing (fun _ _ _ => NotFound) (fun _ _ _ => GetErr "timeout")
           (fun _ => ([], None)) (fun _ => ([], None)) x_resource_service).
  left. split; [reflexivity|]. right. exists "timeout". reflexivity.
Defined.

(** For a HelmRelease the collected Services' endpoints come first, then the
    collected Ingresses' endpoints; an error reported by either collector is
    only logged, and whatever the collector returned is still used. *)
Theorem resource_endpoints_helmrelease getIngress getService collectServices collectIngress
    (r : AppliedResource) services ingresses err1 err2
    (Hkind : ar_Kind r = "HelmRelease")
    (Hs : collectServices r = (services, err1))
    (Hi : collectIngress r = (ingresses, err2)) :
  resource_endpoints getIngress getService collectServices collectIngress r
  = flat_map generatorFromService services ++ flat_map generatorFromIngress ingresses.
Proof.
  unfold resource_endpoints. rewrite Hkind, Hs, Hi. reflexivity.
Qed.

Definition x_resource_helm : AppliedResource :=
  mkAppliedResource "" "default" "chart" "helm.toolkit.fluxcd.io" "v2beta1" "HelmRelease" "web".

Lemma resource_endpoints_helmrelease_witness :
  resource_endpoints (fun _ _ _ => NotFound) (fun _ _ _ => NotFound)
    (fun _ => ([c1_service], Some "list services failed")) (fun _ => ([], Some "timeout"))
    x_resource_helm
  = flat_map generatorFromService [c1_service] ++ flat_map generatorFromIngress [].
Proof.
  exact (resource_endpoints_helmrelease _ _ _ _ x_resource_helm [c1_service] []
           (Some "list services failed") (Some "timeout") eq_refl eq_refl eq_refl).
Defined.

(** ** Endpoints of an Ingress or a Service: fields and ports *)

(** Every endpoint derived from an Ingress has transport protocol TCP, the
    host of one of the Ingress's rules, and a reference to the Ingress; every
    endpoint derived from a Service has no appProtocol, an empty path and a
    reference to the Service. *)
Theorem generators_endpoint_fields (ingress : Ingress) (service : Service) :
  List.Forall (fun se => Protocol (se_Endpoint se) = ProtocolTCP
                         /\ (exists rule, In rule (ing_Rules ingress)
                                          /\ Host (se_Endpoint se) = rule_Host rule)
                         /\ se_Ref se = ingress_ref ingress)
              (generatorFromIngress ingress)
  /\ List.Forall (fun se => AppProtocol (se_Endpoint se) = None /\ Path (se_Endpoint se) = ""
                            /\ se_Ref se = service_ref service)
                 (generatorFromService service).
Proof.
  split; apply List.Forall_forall; intros se Hin.
  - destruct (in_generatorFromIngress ingress se Hin) as [rule [Hr [Hh [Hp _]]]].
    split; [exact Hp|]. split; [exists rule; auto|].
    unfold generatorFromIngress in Hin. apply List.in_flat_map in Hin as [rule' [_ Hse]].
    unfold rule_endpoints in Hse. destruct (rule_HTTP rule'); [|destruct Hse].
    apply List.in_map_iff in Hse as [p [<- _]]. reflexivity.
  - unfold generatorFromService in Hin.
    destruct (str_eqb (svc_Type service) ServiceTypeLoadBalancer).
    + apply List.in_flat_map in Hin as [port [_ Hin]].
      apply List.in_flat_map in Hin as [ing [_ Hse]].
      apply in_lb_endpoints in Hse as [[_ ->] | [_ ->]]; auto.
    + destruct (str_eqb (svc_Type service) ServiceTypeNodePort); [|destruct Hin].
      apply List.in_map_iff in Hin as [p [<- _]]. auto.
Qed.

(** The annotation under [key] does not give a positive integer: missing,
    empty, not a decimal integer, out of the [int] range, zero or negative. *)
Definition no_positive_annotation (ingress : Ingress) (key : string) : Prop :=
  match Atoi (map_index (Annotations (ing_Meta ingress)) key) with
  | Some p => p <= 0
  | None => True
  end.

Lemma annotation_port_default ingress key dflt :
  no_positive_annotation ingress key -> annotation_port ingress key dflt = dflt.
Proof.
  unfold no_positive_annotation, annotation_port.
  destruct (Atoi _) as [p|]; [|reflexivity]. intros H.
  destruct (Z.ltb_spec 0 p); [lia | reflexivity].
Qed.

Lemma annotation_port_value ingress key dflt v :
  Atoi (map_index (Annotations (ing_Meta ingress)) key) = Some v -> 0 < v ->
  annotation_port ingress key dflt = v.
Proof.
  intros H Hv. unfold annotation_port. rewrite H.
  destruct (Z.ltb_spec 0 v); [reflexivity | lia].
Qed.

Lemma in_rule_port ingress se :
  In se (generatorFromIngress ingress) ->
  (AppProtocol (se_Endpoint se) = Some "https"
   /\ Port (se_Endpoint se) = int32_of (annotation_port ingress AnnoIngressControllerHTTPSPort 443))
  \/ (AppProtocol (se_Endpoint se) = Some "http"
   /\ Port (se_Endpoint se) = int32_of (annotation_port ingress AnnoIngressControllerHTTPPort 80)).
Proof.
  intros Hin. destruct (in_generatorFromIngress ingress se Hin) as [rule [_ [_ [_ [Ha Hp]]]]].
  rewrite Ha, Hp. unfold getEndpointPort.
  destruct (getAppProtocol_spec ingress (rule_Host rule)) as [[E _] | [E _]]; rewrite E; auto.
Qed.

Lemma default_ports_all (ingress : Ingress)
    (Hs : no_positive_annotation ingress AnnoIngressControllerHTTPSPort)
    (Hh : no_positive_annotation ingress AnnoIngressControllerHTTPPort) :
  List.Forall (fun se => (AppProtocol (se_Endpoint se) = Some "https" /\ Port (se_Endpoint se) = 443)
                         \/ (AppProtocol (se_Endpoint se) = Some "http" /\ Port (se_Endpoint se) = 80))
              (generatorFromIngress ingress).
Proof.
  apply List.Forall_forall. intros se Hin.
  destruct (in_rule_port ingress se Hin) as [[Ha Hp] | [Ha Hp]];
    [left | right]; split; auto; rewrite Hp, annotation_port_default by assumption; reflexivity.
Qed.




(** A port annotation that parses as a positive integer below 2^31 gives
    exactly that port to the endpoints of its scheme. *)
Theorem generatorFromIngress_annotated_port (ingress : Ingress) (scheme key : string) (v : Z)
    (Hkey : (scheme = "https" /\ key = AnnoIngressControllerHTTPSPort)
            \/ (scheme = "http" /\ key = AnnoIngressControllerHTTPPort))
    (Hv : Atoi (map_index (Annotations (ing_Meta ingress)) key) = Some v)
    (Hrange : 0 < v < 2 ^ 31) :
  List.Forall (fun se => AppProtocol (se_Endpoint se) = Some scheme -> Port (se_Endpoint se) = v)
              (generatorFromIngress ingress).
Proof.
  apply List.Forall_forall. intros se Hin Ha.
  assert (Hw : int32_of v = v) by (apply wrap_signed_small; simpl in *; lia).
  destruct (in_rule_port ingress se Hin) as [[Ha' Hp] | [Ha' Hp]];
    rewrite Ha in Ha'; injection Ha' as Hsch; subst scheme;
    destruct Hkey as [[Es Ek] | [Es Ek]]; try discriminate; subst key;
    rewrite Hp, (annotation_port_value _ _ _ v Hv) by lia; exact Hw.
Qed.

Lemma generatorFromIngress_annotated_port_witness :
  List.Forall (fun se => AppProtocol (se_Endpoint se) = Some "https" -> Port (se_Endpoint se) = 8443)
              (generatorFromIngress
                 (mkIngress "Ingress" "networking.k8s.io/v1"
                    (mkObjectMeta "web" "default" "" ""
                       (<[AnnoIngressControllerHTTPSPort := "8443"]> ∅))
                    [mkIngressTLS ["a.example.com"]]
                    [mkIngressRule "a.example.com" (Some [mkHTTPIngressPath "/"])])).
Proof.
  apply (generatorFromIngress_annotated_port _ "https" AnnoIngressControllerHTTPSPort 8443).
  - left. split; reflexivity.
  - vm_compute. reflexivity.
  - lia.
Defined.

(** ** Endpoint URLs of the generated endpoints *)

(** With no positive port annotation, every Ingress endpoint renders as
    "https://host" or "http://host" followed by its path ("/" dropped):
    the port never appears in the URL. *)
Theorem generatorFromIngress_default_urls (ingress : Ingress)
    (Hs : no_positive_annotation ingress AnnoIngressControllerHTTPSPort)
    (Hh : no_positive_annotation ingress AnnoIngressControllerHTTPPort) :
  List.Forall (fun se => exists scheme, (scheme = "https" \/ scheme = "http") /\
                 ServiceEndpoint_String se
                 = scheme +:+ "://" +:+ Host (se_Endpoint se) +:+ url_path (se_Endpoint se))
              (generatorFromIngress ingress).
Proof.
  pose proof (default_ports_all ingress Hs Hh) as HF.
  apply List.Forall_forall. intros se Hin.
  apply (proj1 (List.Forall_forall _ _)) with (x := se) in HF; [|exact Hin].
  unfold ServiceEndpoint_String, url_path.
  destruct HF as [[Ha Hp] | [Ha Hp]]; rewrite Ha, Hp.
  - exists "https". split; [left; reflexivity | reflexivity].
  - exists "http". split; [right; reflexivity | reflexivity].
Qed.

Lemma generatorFromIngress_default_urls_witness :
  map ServiceEndpoint_String (generatorFromIngress c3_ingress)
    = ["https://a.example.com"; "http://b.example.com"] /\
  List.Forall (fun se => exists scheme, (scheme = "https" \/ scheme = "http") /\
                 ServiceEndpoint_String se
                 = scheme +:+ "://" +:+ Host (se_Endpoint se) +:+ url_path (se_Endpoint se))
              (generatorFromIngress c3_ingress).
Proof.
  split; [vm_compute; reflexivity|].
  apply generatorFromIngress_default_urls; vm_compute; exact I.
Defined.

Definition transport_protocol (p : string) : Prop := p = "TCP" \/ p = "UDP" \/ p = "SCTP".

Lemma append_empty_r (s : string) : s +:+ "" = s.
Proof.
  induction s as [|c s IH]; [reflexivity|].
  change (String c (s +:+ "") = String c s). rewrite IH. reflexivity.
Qed.

(** When every port of a Service uses TCP, UDP or SCTP, every endpoint the
    Service gives renders as the lowercased protocol, "://", the host, ":"
    and the decimal port: the port is always written. *)
Theorem generatorFromService_urls (service : Service)
    (Hprot : List.Forall (fun port => transport_protocol (sp_Protocol port)) (svc_Ports service)) :
  List.Forall (fun se => ServiceEndpoint_String se
                         = ToLower (Protocol (se_Endpoint se)) +:+ "://" +:+ Host (se_Endpoint se)
                           +:+ ":" +:+ fmt_d (Port (se_Endpoint se)))
              (generatorFromService service).
Proof.
  assert (Hse : forall se, In se (generatorFromService service) ->
                exists port, In port (svc_Ports service) /\ Protocol (se_Endpoint se) = sp_Protocol port
                             /\ AppProtocol (se_Endpoint se) = None /\ Path (se_Endpoint se) = "").
  { intros se Hin. unfold generatorFromService in Hin.
    destruct (str_eqb (svc_Type service) ServiceTypeLoadBalancer).
    - apply List.in_flat_map in Hin as [port [Hp Hin]].
      apply List.in_flat_map in Hin as [ing [_ Hse]].
      exists port. apply in_lb_endpoints in Hse as [[_ ->] | [_ ->]]; auto.
    - destruct (str_eqb (svc_Type service) ServiceTypeNodePort); [|destruct Hin].
      apply List.in_map_iff in Hin as [p [<- Hp]]. exists p. auto. }
  apply List.Forall_forall. intros se Hin.
  destruct (Hse se Hin) as [port [Hp [Epr [Ea Epa]]]].
  apply (proj1 (List.Forall_forall _ _)) with (x := port) in Hprot; [|exact Hp].
  unfold ServiceEndpoint_String. rewrite Ea, Epa, Epr.
  destruct Hprot as [-> | [-> | ->]]; simpl; rewrite append_empty_r; reflexivity.
Qed.

Lemma generatorFromService_urls_witness :
  map ServiceEndpoint_String (generatorFromService c1_service)
    = ["tcp://lb.example.com:80"; "tcp://10.0.0.1:80"] /\
  List.Forall (fun se => ServiceEndpoint_String se
                         = ToLower (Protocol (se_Endpoint se)) +:+ "://" +:+ Host (se_Endpoint se)
                           +:+ ":" +:+ fmt_d (Port (se_Endpoint se)))
              (generatorFromService c1_service).
Proof.
  split; [vm_compute; reflexivity|].
  apply generatorFromService_urls. repeat constructor.
Defined.

(** ** [CollectLogsInPod]: outcomes *)


(** With a since-seconds value whose nanosecond count fits in [int64] and no
    since-time, the window starts that many seconds before [now]. *)
Lemma log_fromDate_in_range_witness :
  log_fromDate (mkPodLogOptions (Some 60) None) (mkPod 0) c7_now = c7_now - 60 * Second.
Proof.
  apply (log_fromDate_in_range (mkPodLogOptions (Some 60) None) (mkPod 0) c7_now 60);
    [reflexivity | reflexivity | unfold MinInt64, MaxInt64, Second; lia].
Defined.

(** *** The terminated-container regular expression *)

Lemma list_ascii_of_string_app (a b : string) :
  String.list_ascii_of_string (a +:+ b)
  = String.list_ascii_of_string a ++ String.list_ascii_of_string b.
Proof.
  induction a as [|c a IH]; [reflexivity|].
  change (c :: String.list_ascii_of_string (a +:+ b)
          = c :: String.list_ascii_of_string a ++ String.list_ascii_of_string b).
  rewrite IH. reflexivity.
Qed.

Lemma strip_prefix_app (l s : list ascii) : strip_prefix l (l ++ s) = Some s.
Proof.
  induction l as [|a l IH]; simpl; [reflexivity|].
  rewrite Ascii.eqb_refl. exact IH.
Qed.

Lemma re_match_lit (l : list ascii) (p : list ReItem) (s : list ascii) :
  re_match_prefix (ReLit l :: p) (l ++ s) = re_match_prefix p s.
Proof. simpl. rewrite strip_prefix_app. reflexivity. Qed.

Lemma re_match_dotplus (p : list ReItem) (c : ascii) (x rest : list ascii) :
  List.Forall (fun ch => Ascii.eqb ch newline = false) (c :: x) ->
  re_match_prefix p rest = true ->
  re_match_prefix (ReDotPlus :: p) (c :: x ++ rest) = true.
Proof.
  revert c. induction x as [|c' x IH]; intros c Hnl Hm; inversion Hnl as [|? ? Hc Hnl']; subst.
  - simpl. rewrite Hc, Hm. reflexivity.
  - specialize (IH c' Hnl' Hm). simpl in IH |- *. rewrite Hc, IH.
    rewrite orb_true_r. reflexivity.
Qed.

Lemma re_search_app (p : list ReItem) (pre s : list ascii) :
  re_match_prefix p s = true -> re_search p (pre ++ s) = true.
Proof.
  intros H. induction pre as [|c pre IH]; simpl.
  - destruct s; simpl; rewrite H; reflexivity.
  - rewrite IH, orb_true_r. reflexivity.
Qed.

Definition no_newline (s : string) : Prop :=
  List.Forall (fun ch => Ascii.eqb ch newline = false) (String.list_ascii_of_string s).

(** Any error message that contains "previous terminated container ",
    a non-empty container name, " in pod ", a non-empty pod name and
    " not found" (names without newlines), with any text around it, is the
    recognised condition. *)
Theorem isTerminatedContainerNotFound_recognises (pre container pod suf : string)
    (Hc : container <> "") (Hp : pod <> "")
    (Hnl : no_newline container /\ no_newline pod) :
  isTerminatedContainerNotFound
    (Some (pre +:+ "previous terminated container " +:+ container +:+ " in pod "
               +:+ pod +:+ " not found" +:+ suf)) = true.
Proof.
  destruct Hnl as [Hnc Hnp]. unfold no_newline in *.
  unfold isTerminatedContainerNotFound, MatchString, terminatedContainerNotFoundRegex.
  rewrite !list_ascii_of_string_app.
  apply re_search_app.
  rewrite re_match_lit.
  destruct container as [|c cs]; [congruence|].
  destruct pod as [|q qs]; [congruence|].
  cbn [String.list_ascii_of_string] in Hnc, Hnp |- *.
  rewrite <- app_comm_cons.
  apply re_match_dotplus; [exact Hnc|].
  rewrite re_match_lit, <- app_comm_cons.
  apply re_match_dotplus; [exact Hnp|].
  rewrite re_match_lit. reflexivity.
Qed.

Lemma isTerminatedContainerNotFound_recognises_witness :
  isTerminatedContainerNotFound
    (Some ("unable to retrieve container logs: " +:+ "previous terminated container " +:+ "app"
           +:+ " in pod " +:+ "web-0" +:+ " not found" +:+ "")) = true.
Proof.
  apply isTerminatedContainerNotFound_recognises;
    [discriminate | discriminate | split; repeat constructor].
Defined.

(** * Addon status (package addon) *)

(** A Go [(T, error)] result. *)
Inductive GoResult (A : Type) :=
| ROk (a : A)
| RErr (msg : string).
Arguments ROk {A} a.
Arguments RErr {A} msg.

Record WorkflowStatus := mkWorkflowStatus { Suspend : bool }.

(** [commontypes.AppStatus], the fields [GetAddonStatus] reads. *)
Record AppStatus := mkAppStatus {
  Workflow : option WorkflowStatus;   (* *WorkflowStatus *)
  Phase : string
}.

(** [commontypes.ApplicationRunning] and [commontypes.ApplicationDeleting]. *)
Definition ApplicationRunning : string := "running".
Definition ApplicationDeleting : string := "deleting".

Definition disabled : string := "disabled".
Definition enabled : string := "enabled".
Definition enabling : string := "enabling".
Definition disabling : string := "disabling".
Definition suspend : string := "suspend".

Record ObservabilityEnvironment := mkObservabilityEnvironment {
  env_Cluster : string;
  env_Domain : string;
  env_LoadBalancerIP : string;
  env_ServiceExternalIP : string
}.

(** [Status]; [Clusters] is a [map[string]map[string]interface{}] whose
    values are strings, [None] for a nil map. *)
Record Status := mkStatus {
  AddonPhase : string;
  st_AppStatus : option AppStatus;
  Clusters : option (gmap string (gmap string string))
}.

Section Addon.
(** [ObservabilityAddon] (the addon's name) is declared outside the sources;
    its value does not matter here. *)
Variable ObservabilityAddon : string.

(** [GetObservabilityAccessibilityInfo]: [allocated] is the outcome of
    [allocateDomainForAddon]; [getMemberService c] the Get of the endpoint
    Service in cluster [c] followed by its JSON conversion; [getLocalService]
    the Get on the local cluster. *)
Fixpoint fill_external_ips (getMemberService : string -> GetResult Service)
    (domains : list ObservabilityEnvironment) : GoResult (list ObservabilityEnvironment) :=
  match domains with
  | [] => ROk []
  | d :: rest =>
      match getMemberService (env_Cluster d) with
      | GetErr msg => RErr msg
      | NotFound => RErr "not found"
      | Found svc =>
          let d' := match svc_LBIngress svc with
                    | ing :: nil => {| env_Cluster := env_Cluster d; env_Domain := env_Domain d;
                                  env_LoadBalancerIP := env_LoadBalancerIP d;
                                  env_ServiceExternalIP := IP ing |}
                    | _ => d
                    end in
          match fill_external_ips getMemberService rest with
          | ROk rest' => ROk (d' :: rest')
          | RErr msg => RErr msg
          end
      end
  end.

Definition GetObservabilityAccessibilityInfo
    (allocated : GoResult (list ObservabilityEnvironment))
    (getMemberService : string -> GetResult Service)
    (getLocalService : GetResult Service) : GoResult (list ObservabilityEnvironment) :=
  match allocated with
  | RErr msg => RErr msg
  | ROk domains =>
      match fill_external_ips getMemberService domains with
      | RErr msg => RErr msg
      | ROk domains' =>
          match domains' with
          | [] =>
              match getLocalService with
              | GetErr msg => RErr msg
              | NotFound => RErr "not found"
              | Found svc =>
                  match svc_LBIngress svc with
                  | ing :: nil => ROk [{| env_Cluster := ""; env_Domain := "";
                                     env_LoadBalancerIP := "";
                                     env_ServiceExternalIP := IP ing |}]
                  | _ => ROk []
                  end
              end
          | _ => ROk domains'
          end
      end
  end.

(** The per-cluster entry of [Status.Clusters]. *)
Definition cluster_entry (o : ObservabilityEnvironment) : gmap string string :=
  let access :=
    if str_eqb (env_LoadBalancerIP o) "" then
      "No loadBalancer found, visiting by using 'vela port-forward " +:+ ObservabilityAddon
    else "Visiting URL: " +:+ env_Domain o +:+ ", IP: " +:+ env_LoadBalancerIP o in
  <["domain" := env_Domain o]> (<["loadBalancerIP" := env_LoadBalancerIP o]>
    (<["access" := access]> (<["serviceExternalIP" := env_ServiceExternalIP o]> ∅))).

Definition clusters_of (envs : list ObservabilityEnvironment) : gmap string (gmap string string) :=
  fold_left (fun m o => <[env_Cluster o := cluster_entry o]> m) envs ∅.

(** [GetAddonStatus]: [app] is the outcome of [FetchAddonRelatedApp];
    [secret] that of the Get of the addon's secret (its data, when found);
    [domainArg] the key [ObservabilityAddonDomainArg]; [accessInfo] maps the
    domain to the outcome of [GetObservabilityAccessibilityInfo]. *)
Definition GetAddonStatus (name : string) (app : GetResult AppStatus)
    (secret : GetResult (gmap string string)) (domainArg : string)
    (accessInfo : string -> GoResult (list ObservabilityEnvironment)) : GoResult Status :=
  match app with
  | NotFound => ROk (mkStatus disabled None None)
  | GetErr msg => RErr msg
  | Found st =>
      if match Workflow st with Some w => Suspend w | None => false end then
        ROk (mkStatus suspend (Some st) None)
      else if str_eqb (Phase st) ApplicationRunning then
        if str_eqb name ObservabilityAddon then
          match secret with
          | Found data =>
              let domain := default "" (data !! domainArg) in
              match accessInfo domain with
              | RErr _ => ROk (mkStatus enabling (Some st) None)
              | ROk observability =>
                  ROk (mkStatus enabled (Some st) (Some (clusters_of observability)))
              end
          | _ => ROk (mkStatus enabling (Some st) None)
          end
        else ROk (mkStatus enabled (Some st) None)
      else if str_eqb (Phase st) ApplicationDeleting then
        ROk (mkStatus disabling (Some st) None)
      else ROk (mkStatus enabling (Some st) None)
  end.
End Addon.

(** ** [GetAddonStatus] *)

Definition workflow_suspended (st : AppStatus) : bool :=
  match Workflow st with Some w => Suspend w | None => false end.

(** The addon phase: a missing addon application is "disabled" (not an
    error), another lookup error is returned; a suspended workflow gives
    "suspend" whatever the phase; otherwise a deleting application gives
    "disabling", a phase other than running and deleting gives "enabling",
    and a running application of an addon other than the observability one
    gives "enabled". *)
Theorem GetAddonStatus_phase (ObservabilityAddon name : string) secret domainArg accessInfo :
  GetAddonStatus ObservabilityAddon name NotFound secret domainArg accessInfo
    = ROk (mkStatus disabled None None)
  /\ (forall msg, GetAddonStatus ObservabilityAddon name (GetErr msg) secret domainArg accessInfo
                  = RErr msg)
  /\ (forall st, workflow_suspended st = true ->
        GetAddonStatus ObservabilityAddon name (Found st) secret domainArg accessInfo
        = ROk (mkStatus suspend (Some st) None))
  /\ (forall st, workflow_suspended st = false -> Phase st = ApplicationDeleting ->
        GetAddonStatus ObservabilityAddon name (Found st) secret domainArg accessInfo
        = ROk (mkStatus disabling (Some st) None))
  /\ (forall st, workflow_suspended st = false ->
        Phase st <> ApplicationRunning -> Phase st <> ApplicationDeleting ->
        GetAddonStatus ObservabilityAddon name (Found st) secret domainArg accessInfo
        = ROk (mkStatus enabling (Some st) None))
  /\ (forall st, workflow_suspended st = false -> Phase st = ApplicationRunning ->
        name <> ObservabilityAddon ->
        GetAddonStatus ObservabilityAddon name (Found st) secret domainArg accessInfo
        = ROk (mkStatus enabled (Some st) None)).
Proof.
  unfold GetAddonStatus. fold workflow_suspended.
  repeat split.
  - intros st Hs. unfold workflow_suspended in Hs. rewrite Hs. reflexivity.
  - intros st Hs Hp. unfold workflow_suspended in Hs. rewrite Hs, Hp. reflexivity.
  - intros st Hs Hr Hd. unfold workflow_suspended in Hs. rewrite Hs.
    apply str_neqb in Hr, Hd. rewrite Hr, Hd. reflexivity.
  - intros st Hs Hr Hn. unfold workflow_suspended in Hs. rewrite Hs, Hr, str_eqb_refl.
    apply str_neqb in Hn. rewrite Hn. reflexivity.
Qed.

Lemma clusters_of_go (ObservabilityAddon : string) (envs : list ObservabilityEnvironment)
    (acc : gmap string (gmap string string)) (c : string) :
  (exists o, In o envs /\ env_Cluster o = c /\
     fold_left (fun m o => <[env_Cluster o := cluster_entry ObservabilityAddon o]> m) envs acc !! c
     = Some (cluster_entry ObservabilityAddon o))
  \/ (fold_left (fun m o => <[env_Cluster o := cluster_entry ObservabilityAddon o]> m) envs acc !! c
      = acc !! c /\ forall o, In o envs -> env_Cluster o <> c).
Proof.
  revert acc. induction envs as [|o rest IH]; intros acc; simpl.
  - right. split; [reflexivity | intros o []].
  - destruct (IH (<[env_Cluster o := cluster_entry ObservabilityAddon o]> acc))
      as [[o' [Ho' [Hc Hl]]] | [Hl Hno]].
    + left. exists o'. auto.
    + destruct (decide (env_Cluster o = c)) as [Ec | Nc].
      * left. exists o. split; [left; reflexivity|]. split; [exact Ec|].
        rewrite Hl, Ec. apply lookup_insert_eq.
      * right. split.
        -- rewrite Hl. apply lookup_insert_ne. exact Nc.
        -- intros o'' [<- | Ho'']; [exact Nc | apply Hno; exact Ho''].
Qed.

(** For the observability addon, running and not suspended: when the
    addon secret or the accessibility information cannot be read the phase
    is "enabling" (no error); otherwise it is "enabled" and [Clusters] has an
    entry exactly for the clusters of the accessibility information, the
    entry of a cluster being built from one of its environments. *)
Theorem GetAddonStatus_observability (ObservabilityAddon : string) (st : AppStatus)
    secret domainArg accessInfo
    (Hs : workflow_suspended st = false) (Hr : Phase st = ApplicationRunning) :
  ((forall data, secret <> Found data) ->
   GetAddonStatus ObservabilityAddon ObservabilityAddon (Found st) secret domainArg accessInfo
   = ROk (mkStatus enabling (Some st) None))
  /\ (forall data msg, secret = Found data ->
        accessInfo (default "" (data !! domainArg)) = RErr msg ->
        GetAddonStatus ObservabilityAddon ObservabilityAddon (Found st) secret domainArg accessInfo
        = ROk (mkStatus enabling (Some st) None))
  /\ (forall data envs, secret = Found data ->
        accessInfo (default "" (data !! domainArg)) = ROk envs ->
        exists m,
          GetAddonStatus ObservabilityAddon ObservabilityAddon (Found st) secret domainArg accessInfo
          = ROk (mkStatus enabled (Some st) (Some m))
          /\ forall c, (exists o, In o envs /\ env_Cluster o = c
                                  /\ m !! c = Some (cluster_entry ObservabilityAddon o))
                       \/ (m !! c = None /\ forall o, In o envs -> env_Cluster o <> c)).
Proof.
  unfold workflow_suspended in Hs.
  unfold GetAddonStatus. rewrite Hs, Hr, !str_eqb_refl. split; [|split].
  - intros Hno. destruct secret as [data| |msg]; [exfalso; exact (Hno data eq_refl)|reflexivity..].
  - intros data msg -> Ha. rewrite Ha. reflexivity.
  - intros data envs -> Ha. rewrite Ha. eexists. split; [reflexivity|].
    intros c. unfold clusters_of.
    destruct (clusters_of_go ObservabilityAddon envs ∅ c) as [H | [Hl Hno]]; [left; exact H|].
    right. split; [rewrite Hl; apply lookup_empty | exact Hno].
Qed.

Definition x_running : AppStatus := mkAppStatus (Some (mkWorkflowStatus false)) "running".

Lemma GetAddonStatus_observability_witness :
  GetAddonStatus "observability" "observability" (Found x_running) NotFound "domain"
    (fun _ => RErr "unreachable") = ROk (mkStatus enabling (Some x_running) None).
Proof.
  refine (proj1 (GetAddonStatus_observability "observability" x_running NotFound "domain"
                   (fun _ => RErr "unreachable") eq_refl eq_refl) _).
  intros data H. discriminate H.
Defined.

(** ** [GetObservabilityAccessibilityInfo] *)

(** How one allocated environment relates to its result: cluster, domain and
    load-balancer IP are kept; the external IP becomes the IP of the
    cluster's endpoint Service when that Service has exactly one
    load-balancer ingress entry, and is kept otherwise. *)
Definition env_filled (getMemberService : string -> GetResult Service)
    (d d' : ObservabilityEnvironment) : Prop :=
  env_Cluster d' = env_Cluster d /\ env_Domain d' = env_Domain d
  /\ env_LoadBalancerIP d' = env_LoadBalancerIP d
  /\ exists svc, getMemberService (env_Cluster d) = Found svc
                 /\ env_ServiceExternalIP d'
                    = match svc_LBIngress svc with
                      | ing :: nil => IP ing
                      | _ => env_ServiceExternalIP d
                      end.

Lemma fill_external_ips_ok getMemberService domains domains' :
  fill_external_ips getMemberService domains = ROk domains' ->
  List.Forall2 (env_filled getMemberService) domains domains'.
Proof.
  revert domains'. induction domains as [|d rest IH]; intros domains' H; simpl in H.
  - injection H as <-. constructor.
  - destruct (getMemberService (env_Cluster d)) as [svc| |msg] eqn:Eg; [|discriminate..].
    destruct (fill_external_ips getMemberService rest) as [rest'|msg] eqn:Er; [|discriminate].
    injection H as <-. constructor; [|apply IH; reflexivity].
    unfold env_filled.
    destruct (svc_LBIngress svc) as [|ing [|ing2 l]] eqn:El; simpl;
      (repeat split; [exists svc; rewrite El; auto]).
Qed.

Lemma fill_external_ips_err getMemberService domains :
  (exists d, In d domains /\ forall svc, getMemberService (env_Cluster d) <> Found svc) ->
  exists msg, fill_external_ips getMemberService domains = RErr msg.
Proof.
  intros [d [Hin Hno]]. induction domains as [|d0 rest IH]; [destruct Hin|]. simpl.
  destruct Hin as [-> | Hin].
  - destruct (getMemberService (env_Cluster d)) as [svc| |msg] eqn:Eg.
    + exfalso. exact (Hno svc eq_refl).
    + eexists; reflexivity.
    + eexists; reflexivity.
  - destruct (IH Hin) as [msg Hm].
    destruct (getMemberService (env_Cluster d0)) as [svc| |msg'];
      [rewrite Hm|..]; eexists; reflexivity.
Qed.

(** With a non-empty allocation, the accessibility information fails as soon
    as the endpoint Service of one of the clusters cannot be read; when it
    succeeds it lists the allocated environments in order, each filled in
    as [env_filled] says. *)
Theorem GetObservabilityAccessibilityInfo_members getMemberService getLocalService
    (domains : list ObservabilityEnvironment) (Hne : domains <> []) :
  ((exists d, In d domains /\ forall svc, getMemberService (env_Cluster d) <> Found svc) ->
   exists msg, GetObservabilityAccessibilityInfo (ROk domains) getMemberService getLocalService
               = RErr msg)
  /\ (forall envs, GetObservabilityAccessibilityInfo (ROk domains) getMemberService getLocalService
                   = ROk envs ->
      List.Forall2 (env_filled getMemberService) domains envs).
Proof.
  unfold GetObservabilityAccessibilityInfo. split.
  - intros Hex. destruct (fill_external_ips_err getMemberService domains Hex) as [msg Hm].
    rewrite Hm. eexists; reflexivity.
  - intros envs H.
    destruct (fill_external_ips getMemberService domains) as [ds|msg] eqn:Ef; [|discriminate].
    pose proof (fill_external_ips_ok _ _ _ Ef) as HF.
    destruct ds as [|d ds].
    + inversion HF; subst. contradiction.
    + injection H as <-. exact HF.
Qed.

(** The Service every member cluster returns: one load-balancer entry. *)
Definition x_endpoint_service : Service :=
  mkService "Service" "v1" (mkObjectMeta "grafana" "vela-system" "" "" ∅) ServiceTypeLoadBalancer
            [mkServicePort "TCP" 80 30080] [mkLoadBalancerIngress "1.2.3.4" ""].

Definition x_domains : list ObservabilityEnvironment :=
  [mkObservabilityEnvironment "member-1" "m1.example.com" "" "";
   mkObservabilityEnvironment "member-2" "m2.example.com" "5.6.7.8" "old"].

Lemma GetObservabilityAccessibilityInfo_members_witness :
  List.Forall2 (env_filled (fun _ => Found x_endpoint_service)) x_domains
    [mkObservabilityEnvironment "member-1" "m1.example.com" "" "1.2.3.4";
     mkObservabilityEnvironment "member-2" "m2.example.com" "5.6.7.8" "1.2.3.4"].
Proof.
  apply (proj2 (GetObservabilityAccessibilityInfo_members (fun _ => Found x_endpoint_service)
                  NotFound x_domains ltac:(discriminate))).
  vm_compute. reflexivity.
Defined.

(** With an empty allocation the local cluster's endpoint Service decides:
    one load-balancer entry gives a single environment carrying only that
    entry's IP, any other number gives an empty list, and a failed lookup
    (not found included) is an error. *)
Theorem GetObservabilityAccessibilityInfo_local getMemberService getLocalService :
  (forall svc ing, getLocalService = Found svc -> svc_LBIngress svc = [ing] ->
     GetObservabilityAccessibilityInfo (ROk []) getMemberService getLocalService
     = ROk [mkObservabilityEnvironment "" "" "" (IP ing)])
  /\ (forall svc, getLocalService = Found svc -> length (svc_LBIngress svc) <> 1%nat ->
     GetObservabilityAccessibilityInfo (ROk []) getMemberService getLocalService = ROk [])
  /\ ((forall svc, getLocalService <> Found svc) ->
     exists msg, GetObservabilityAccessibilityInfo (ROk []) getMemberService getLocalService
                 = RErr msg).
Proof.
  unfold GetObservabilityAccessibilityInfo. simpl. split; [|split].
  - intros svc ing -> Hl. rewrite Hl. reflexivity.
  - intros svc -> Hl. destruct (svc_LBIngress svc) as [|i [|i2 l]]; [reflexivity | simpl in Hl; lia | reflexivity].
  - intros Hno. destruct getLocalService as [svc| |msg]; [exfalso; exact (Hno svc eq_refl)|eexists; reflexivity..].
Qed.
